(** * adonis-drive-google: the Google Cloud Storage driver

    A shallow embedding of [src/Drivers/index.js] (class [GoogleStorage]).
    Every method of the class is an effect tree over the four things the
    class talks to: its bucket selector [this._bucket], the storage client
    [this.storage], the clock and the file system.  Running a tree against
    an environment gives the promise's outcome and the list of effects in
    the order in which they happened. *)

From Stdlib Require Import String Ascii List Bool NArith ZArith Lia.
From Stdlib Require Import DecimalString DecimalPos DecimalZ.
Import ListNotations.
Local Open Scope string_scope.
Local Open Scope list_scope.

(** ** JavaScript values *)

Inductive BackendError : Type :=
| MkError (message : string).

(** What [fs.mkdirSync] throws, by its code ([EEXIST], [EACCES], ...). *)
Inductive FsError : Type :=
| MkFsError (code : string).

Inductive Value : Type :=
| VUndefined
| VBool (b : bool)
| VNumber (n : N)
| VString (s : string)
| VObject (handle : N).      (* an object of the client: file, stream *)

(** An options object: [get_prop] reads a property, the first binding of a
    key wins. *)
Definition Options : Type := list (string * Value).

Fixpoint get_prop (key : string) (o : Options) : Value :=
  match o with
  | [] => VUndefined
  | (k, v) :: o' => if String.eqb k key then v else get_prop key o'
  end.

(** [Object.assign({}, options, extra)]: the properties of [extra] shadow
    those of [options]. *)
Definition Object_assign (options extra : Options) : Options :=
  extra ++ options.

(** [v === true] *)
Definition strict_eq_true (v : Value) : bool :=
  match v with
  | VBool true => true
  | _ => false
  end.

(** Truthiness of a bucket argument: absent and the empty string are
    falsy. *)
Definition truthy (a : option string) : bool :=
  match a with
  | Some s => negb (String.eqb s "")
  | None => false
  end.

(** [a || b] on a bucket argument and an already computed string. *)
Definition js_or (a : option string) (b : string) : string :=
  match a with
  | Some s => if String.eqb s "" then b else s
  | None => b
  end.

(** ** The bucket selector *)

(** Modelled from the spec: the class [Resetable] of the package
    [resetable] ([new Resetable(v)], [set], [pull]) is not among the
    sources.  Sections 3 and 4.1 give it two fields, a default bucket and an
    optional pending override; [set] stores the override, [pull] returns the
    override when there is one and clears it, and returns the default
    otherwise. *)
Record Resetable : Type := {
  defaultBucket : string;
  pendingOverride : option string
}.

Module Resetable.

(** Modelled from the spec: [new Resetable(v)], a selector with default
    [v] and nothing pending. *)
Definition new (v : string) : Resetable :=
  {| defaultBucket := v; pendingOverride := None |}.

(** Modelled from the spec: [set(v)] stores [v] as the pending override. *)
Definition set (v : string) (r : Resetable) : Resetable :=
  {| defaultBucket := defaultBucket r; pendingOverride := Some v |}.

(** Modelled from the spec: the bucket a resolution gives, the pending
    override if present, else the default. *)
Definition get (r : Resetable) : string :=
  match pendingOverride r with
  | Some v => v
  | None => defaultBucket r
  end.

(** Modelled from the spec: the selector with the override cleared. *)
Definition clear (r : Resetable) : Resetable :=
  {| defaultBucket := defaultBucket r; pendingOverride := None |}.

(** Modelled from the spec: [pull()] returns the bucket and clears the
    override. *)
Definition pull (r : Resetable) : string * Resetable :=
  (get r, clear r).

End Resetable.

(** ** Requests to the storage client *)

Inductive Request : Type :=
| ReqExists (bucket location : string)
| ReqGetSignedUrl (bucket location : string) (options : Options)
| ReqUpload (bucket : string) (content : Value) (options : Options)
| ReqDelete (bucket location : string)
| ReqCopy (bucket src destBucket dest : string) (options : Options)
| ReqMove (bucket src destBucket dest : string) (options : Options)
| ReqMakePublic (bucket location : string)
| ReqMakePrivate (bucket location : string)
| ReqCreateReadStream (bucket location : string)
| ReqGet (bucket location : string)
| ReqDownload (bucket location destination : string).

(** The arguments [(error, result)] the client passes to a callback. *)
Record Response : Type := {
  error : option BackendError;
  result : Value
}.

(** The bucket a request is addressed to: the argument of
    [this.storage.bucket(...)] at the head of the call chain. *)
Definition req_bucket (q : Request) : string :=
  match q with
  | ReqExists b _ | ReqGetSignedUrl b _ _ | ReqUpload b _ _ | ReqDelete b _
  | ReqCopy b _ _ _ _ | ReqMove b _ _ _ _ | ReqMakePublic b _
  | ReqMakePrivate b _ | ReqCreateReadStream b _ | ReqGet b _
  | ReqDownload b _ _ => b
  end.

(** ** Effects *)

(** What a run leaves in the log. *)

Inductive Event : Type :=
| EvSet (b : string)                       (* the selector was set to b *)
| EvPull (v : string)                      (* the selector was pulled, gave v *)
| EvRequest (q : Request) (r : Response)   (* the client was called *)
| EvNow (t : Z)                            (* the clock was read *)
| EvExistsSync (dir : string) (b : bool)
| EvMkdirSync (dir : string) (thrown : option FsError).

(** The calls a method makes out of its own body, each with the type of
    what it gets back. *)
Inductive Effect : Type -> Type :=
| BucketSet (b : string) : Effect unit         (* this._bucket.set(b) *)
| BucketPull : Effect string                   (* this._bucket.pull() *)
| Backend (q : Request) : Effect Response      (* this.storage. ... *)
| DateNow : Effect Z                           (* new Date().getTime() *)
| FsExistsSync (dir : string) : Effect bool    (* fs.existsSync(dir) *)
| FsMkdirSync (dir : string) : Effect (option FsError)
                                               (* fs.mkdirSync(dir), with
                                                  what it threw, if it did *)
| MimeLookup (path : string) : Effect Value.   (* mime.lookup(path) *)

Inductive Prog (A : Type) : Type :=
| Ret (a : A)
| Vis {X : Type} (e : Effect X) (k : X -> Prog A).

Arguments Ret {A} a.
Arguments Vis {A X} e k.

Fixpoint bind {A B : Type} (p : Prog A) (f : A -> Prog B) : Prog B :=
  match p with
  | Ret a => f a
  | Vis e k => Vis e (fun x => bind (k x) f)
  end.

Declare Scope prog_scope.
Delimit Scope prog_scope with prog.
Notation "x <- c ;; k" := (bind c (fun x => k))
  (at level 61, c at next level, right associativity) : prog_scope.
Notation "c ;;; k" := (bind c (fun _ => k))
  (at level 61, right associativity) : prog_scope.
Local Open Scope prog_scope.

Definition perform {X : Type} (e : Effect X) : Prog X := Vis e Ret.

Definition pull : Prog string := perform BucketPull.
Definition set (b : string) : Prog unit := perform (BucketSet b).
Definition request (q : Request) : Prog Response := perform (Backend q).
Definition getTime : Prog Z := perform DateNow.
Definition existsSync (dir : string) : Prog bool := perform (FsExistsSync dir).
Definition mkdirSync (dir : string) : Prog (option FsError) :=
  perform (FsMkdirSync dir).
Definition lookup (path : string) : Prog Value := perform (MimeLookup path).

(** ** The world a call runs in *)

(** What the class does not decide: the answers of the storage client (they
    may depend on everything that happened before), the clock (milliseconds
    since the epoch, negative before it), whether the file system refuses to
    create a directory, and [mime.lookup]. *)
Record Env : Type := {
  respond : list Event -> Request -> Response;
  clock : list Event -> Z;
  mkdir_error : list Event -> string -> option FsError;
  mime_lookup : string -> Value
}.

(** The client [new Storage({ keyFilename })]: the class keeps the client,
    not the name of the key file. *)
Inductive Storage : Type :=
| NewStorage (keyFilename : string).

Record GoogleStorage : Type := {
  storage : Storage;
  _bucket : Resetable
}.

Record Config : Type := {
  config_keyFilename : string;
  config_bucket : string
}.

Definition constructor (config : Config) : GoogleStorage :=
  {| storage := NewStorage (config_keyFilename config);
     _bucket := Resetable.new (config_bucket config) |}.

Record World : Type := {
  this : GoogleStorage;
  dirs : list string;           (* the directories that exist *)
  log : list Event              (* the effects so far, oldest first *)
}.

Definition with_selector (r : Resetable) (w : World) : World :=
  {| this := {| storage := storage (this w); _bucket := r |};
     dirs := dirs w;
     log := log w |}.

Definition with_dir (d : string) (w : World) : World :=
  {| this := this w; dirs := d :: dirs w; log := log w |}.

Definition logged (l : list Event) (w : World) : World :=
  match l with
  | [] => w
  | _ => {| this := this w; dirs := dirs w; log := log w ++ l |}
  end.

(** What an effect gives back in a world.  [mkdirSync] throws [EEXIST] on
    a directory that exists, and otherwise whatever the file system
    decides. *)
Definition answer {X : Type} (env : Env) (e : Effect X) (w : World) : X :=
  match e in Effect X return X with
  | BucketSet _ => tt
  | BucketPull => fst (Resetable.pull (_bucket (this w)))
  | Backend q => respond env (log w) q
  | DateNow => clock env (log w)
  | FsExistsSync d => existsb (String.eqb d) (dirs w)
  | FsMkdirSync d =>
      if existsb (String.eqb d) (dirs w) then Some (MkFsError "EEXIST")
      else mkdir_error env (log w) d
  | MimeLookup l => mime_lookup env l
  end.

(** What it leaves in the log; [mime.lookup] is a pure function and leaves
    nothing. *)
Definition observe {X : Type} (e : Effect X) : X -> list Event :=
  match e in Effect X return X -> list Event with
  | BucketSet b => fun _ => [EvSet b]
  | BucketPull => fun v => [EvPull v]
  | Backend q => fun r => [EvRequest q r]
  | DateNow => fun t => [EvNow t]
  | FsExistsSync d => fun b => [EvExistsSync d b]
  | FsMkdirSync d => fun thrown => [EvMkdirSync d thrown]
  | MimeLookup _ => fun _ => []
  end.

(** What it changes, given what it gave back: a [mkdirSync] that threw
    has created nothing. *)
Definition change {X : Type} (e : Effect X) : X -> World -> World :=
  match e in Effect X return X -> World -> World with
  | BucketSet b =>
      fun _ w => with_selector (Resetable.set b (_bucket (this w))) w
  | BucketPull =>
      fun _ w => with_selector (snd (Resetable.pull (_bucket (this w)))) w
  | FsMkdirSync d =>
      fun thrown w =>
        match thrown with
        | None => with_dir d w
        | Some _ => w
        end
  | _ => fun _ w => w
  end.

Definition handle {X : Type} (env : Env) (e : Effect X) (w : World)
  : X * World :=
  let x := answer env e w in
  (x, logged (observe e x) (change e x w)).

Fixpoint run {A : Type} (env : Env) (p : Prog A) (w : World) : A * World :=
  match p with
  | Ret a => (a, w)
  | Vis e k => run env (k (fst (handle env e w))) (snd (handle env e w))
  end.

(** The effects of one run, oldest first: what it appends to the log. *)
Fixpoint events {A : Type} (env : Env) (p : Prog A) (w : World)
  : list Event :=
  match p with
  | Ret _ => []
  | Vis e k =>
      observe e (fst (handle env e w))
      ++ events env (k (fst (handle env e w))) (snd (handle env e w))
  end.

(** ** The methods of [GoogleStorage] *)

(** How a call ends: a promise that resolves or rejects, or, for the two
    synchronous methods, a plain return value; or the method throws before
    it has made its promise. *)
Inductive Outcome : Type :=
| Resolved (v : Value)
| Rejected (e : BackendError)
| Returned (v : Value)
| Thrown (e : FsError).

(** [bucket || this._bucket.pull()]: the selector is pulled only when the
    argument is falsy. *)
Definition or_pull (a : option string) : Prog string :=
  match a with
  | Some s => if String.eqb s "" then pull else Ret s
  | None => pull
  end.

(** The decimal form a template literal gives a time stamp, with a minus
    sign before the epoch. *)
Definition number_to_string (t : Z) : string :=
  NilZero.string_of_int (Z.to_int t).

Definition bucket (b : string) : Prog unit :=
  set b.

Definition exists_ (location : string) : Prog Outcome :=
  b <- pull ;;
  r <- request (ReqExists b location) ;;
  match error r with
  | Some e => Ret (Rejected e)
  | None => Ret (Resolved (result r))
  end.

Definition getUrl (location : string) (bucket : option string) : Prog string :=
  bucket <- or_pull bucket ;;
  Ret ("https://storage.googleapis.com/" ++ bucket ++ "/" ++ location)%string.

Definition getSignedUrl (location : string) (expiry : Value) : Prog Outcome :=
  let options := [("action", VString "read"); ("expires", expiry)] in
  b <- pull ;;
  r <- request (ReqGetSignedUrl b location options) ;;
  match error r with
  | Some e => Ret (Rejected e)
  | None => Ret (Resolved (result r))
  end.

Definition put (location : string) (content : Value) (options : Options)
  : Prog Outcome :=
  contentType <- lookup location ;;
  let clonedOptions :=
    Object_assign options
      [("destination", VString location); ("contentType", contentType)] in
  b <- pull ;;
  r <- request (ReqUpload b content clonedOptions) ;;
  match error r with
  | Some e => Ret (Rejected e)
  | None =>
      b' <- pull ;;
      url <- getUrl location (Some b') ;;
      Ret (Resolved (VString url))
  end.

Definition delete (location : string) : Prog Outcome :=
  b <- pull ;;
  r <- request (ReqDelete b location) ;;
  match error r with
  | Some e => Ret (Rejected e)
  | None => Ret (Resolved (VBool true))
  end.

Definition makePublic (location : string) : Prog Outcome :=
  b <- pull ;;
  r <- request (ReqMakePublic b location) ;;
  match error r with
  | Some e => Ret (Rejected e)
  | None => Ret (Resolved (VBool true))
  end.

Definition makePrivate (location : string) : Prog Outcome :=
  b <- pull ;;
  r <- request (ReqMakePrivate b location) ;;
  match error r with
  | Some e => Ret (Rejected e)
  | None => Ret (Resolved (VBool true))
  end.

Definition copy (src dest : string) (destBucket : option string)
  (options : Options) : Prog Outcome :=
  bucket <- pull ;;
  let destBucket := js_or destBucket bucket in
  r <- request (ReqCopy bucket src destBucket dest options) ;;
  match error r with
  | Some e => Ret (Rejected e)
  | None =>
      if strict_eq_true (get_prop "public" options) then
        p <- makePublic dest ;;
        match p with
        | Rejected err => Ret (Rejected err)
        | _ =>
            url <- getUrl dest (Some destBucket) ;;
            Ret (Resolved (VString url))
        end
      else
        url <- getUrl dest (Some destBucket) ;;
        Ret (Resolved (VString url))
  end.

Definition move (src dest : string) (destBucket : option string)
  (options : Options) : Prog Outcome :=
  bucket <- pull ;;
  let destBucket := js_or destBucket bucket in
  r <- request (ReqMove bucket src destBucket dest options) ;;
  match error r with
  | Some e => Ret (Rejected e)
  | None =>
      if strict_eq_true (get_prop "public" options) then
        p <- makePublic dest ;;
        match p with
        | Rejected err => Ret (Rejected err)
        | _ =>
            url <- getUrl dest (Some destBucket) ;;
            Ret (Resolved (VString url))
        end
      else
        url <- getUrl dest (Some destBucket) ;;
        Ret (Resolved (VString url))
  end.

Definition getStream (location : string) : Prog Outcome :=
  b <- pull ;;
  r <- request (ReqCreateReadStream b location) ;;
  Ret (Returned (result r)).

Definition getObject (location : string) : Prog Outcome :=
  b <- pull ;;
  r <- request (ReqGet b location) ;;
  match error r with
  | Some e => Ret (Rejected e)
  | None => Ret (Resolved (result r))
  end.

Definition download (location : string) : Prog Outcome :=
  let dir := "tmp" in
  t <- getTime ;;
  let dest := (dir ++ "/" ++ number_to_string t ++ "-" ++ location)%string in
  present <- existsSync dir ;;
  thrown <- (if negb present then mkdirSync dir else Ret None) ;;
  match thrown with
  | Some e => Ret (Thrown e)
  | None =>
      b <- pull ;;
      r <- request (ReqDownload b location dest) ;;
      match error r with
      | Some e => Ret (Rejected e)
      | None => Ret (Resolved (VString dest))
      end
  end.

(** A call of one of the methods that work on an object of a bucket. *)
Inductive Op : Type :=
| OpExists (location : string)
| OpGetUrl (location : string) (bucket : option string)
| OpGetSignedUrl (location : string) (expiry : Value)
| OpPut (location : string) (content : Value) (options : Options)
| OpDelete (location : string)
| OpCopy (src dest : string) (destBucket : option string) (options : Options)
| OpMove (src dest : string) (destBucket : option string) (options : Options)
| OpMakePublic (location : string)
| OpMakePrivate (location : string)
| OpGetStream (location : string)
| OpGetObject (location : string)
| OpDownload (location : string).

Definition call (op : Op) : Prog Outcome :=
  match op with
  | OpExists l => exists_ l
  | OpGetUrl l b => url <- getUrl l b ;; Ret (Returned (VString url))
  | OpGetSignedUrl l e => getSignedUrl l e
  | OpPut l c o => put l c o
  | OpDelete l => delete l
  | OpCopy s d b o => copy s d b o
  | OpMove s d b o => move s d b o
  | OpMakePublic l => makePublic l
  | OpMakePrivate l => makePrivate l
  | OpGetStream l => getStream l
  | OpGetObject l => getObject l
  | OpDownload l => download l
  end.

(** ** Sample environments *)

Definition ok : Response := {| error := None; result := VBool true |}.

Definition failed (message : string) : Response :=
  {| error := Some (MkError message); result := VUndefined |}.

(** A storage client and a clock that always give the same answers. *)
Definition env_ok : Env :=
  {| respond := fun _ _ => ok;
     clock := fun _ => 1700000000000%Z;
     mkdir_error := fun _ _ => None;
     mime_lookup := fun _ => VString "text/plain" |}.

(** The same, in a directory in which nothing can be created. *)
Definition env_read_only : Env :=
  {| respond := fun _ _ => ok;
     clock := fun _ => 1700000000000%Z;
     mkdir_error := fun _ _ => Some (MkFsError "EACCES");
     mime_lookup := fun _ => VString "text/plain" |}.

(** The same as the first, with a clock set before the epoch. *)
Definition env_before_epoch : Env :=
  {| respond := fun _ _ => ok;
     clock := fun _ => (-5)%Z;
     mkdir_error := fun _ _ => None;
     mime_lookup := fun _ => VString "text/plain" |}.

(** A storage client that refuses every change of an ACL. *)
Definition env_acl_denied : Env :=
  {| respond := fun _ q =>
       match q with
       | ReqMakePublic _ _ | ReqMakePrivate _ _ => failed "forbidden"
       | _ => ok
       end;
     clock := fun _ => 1700000000000%Z;
     mkdir_error := fun _ _ => None;
     mime_lookup := fun _ => VString "text/plain" |}.

(** A fresh adapter with default bucket [d], in an empty directory. *)
Definition fresh (d : string) : World :=
  {| this := constructor {| config_keyFilename := "key.json";
                            config_bucket := d |};
     dirs := [];
     log := [] |}.

Definition pulls (l : list Event) : list string :=
  flat_map (fun e => match e with EvPull v => [v] | _ => [] end) l.

Definition requests (l : list Event) : list Request :=
  flat_map (fun e => match e with EvRequest q _ => [q] | _ => [] end) l.


(** The calls that resolve the selector: all of them, except [getUrl] with
    a bucket that is not the empty string. *)
Definition resolves (op : Op) : bool :=
  match op with
  | OpGetUrl _ b => negb (truthy b)
  | _ => true
  end.

Definition is_digit (c : ascii) : bool :=
  let n := nat_of_ascii c in
  andb (Nat.leb 48 n) (Nat.leb n 57).

Fixpoint all_digits (s : string) : bool :=
  match s with
  | EmptyString => true
  | String c s' => andb (is_digit c) (all_digits s')
  end.

(** [<digits>]: one decimal digit or more. *)
Definition digits (s : string) : Prop :=
  s <> "" /\ all_digits s = true.

(** Effect trees that never set the selector: every method but [bucket]. *)
Definition sets {X : Type} (e : Effect X) : bool :=
  match e with
  | BucketSet _ => true
  | _ => false
  end.

Inductive NoSet {A : Type} : Prog A -> Prop :=
| NoSet_Ret (a : A) : NoSet (Ret a)
| NoSet_Vis {X : Type} (e : Effect X) (k : X -> Prog A) :
    sets e = false -> (forall x, NoSet (k x)) -> NoSet (Vis e k).

(** The bucket a call works on, seen from outside: [getUrl] puts it in the
    URL, every other method addresses its first request to it. *)
Definition uses_bucket (b : string) (env : Env) (op : Op) (w : World) : Prop :=
  match op with
  | OpGetUrl l a =>
      fst (run env (getUrl l a) w) =
      ("https://storage.googleapis.com/" ++ b ++ "/" ++ l)%string
  | _ =>
      exists q,
        hd_error (requests (events env (call op) w)) = Some q /\
        req_bucket q = b
  end.

Definition is_makePublic (q : Request) : bool :=
  match q with
  | ReqMakePublic _ _ => true
  | _ => false
  end.

(** [copy] and [move] are written twice in the class, with the same body
    around two methods of the client. *)
Inductive Transfer : Type := Copy | Move.

Definition transfer (t : Transfer)
  : string -> string -> option string -> Options -> Prog Outcome :=
  match t with
  | Copy => copy
  | Move => move
  end.

Definition transfer_request (t : Transfer)
  : string -> string -> string -> string -> Options -> Request :=
  match t with
  | Copy => ReqCopy
  | Move => ReqMove
  end.

(** The answers of the client in a list of effects, oldest first. *)
Definition responses (l : list Event) : list Response :=
  flat_map (fun e => match e with EvRequest _ r => [r] | _ => [] end) l.

(** Every request comes right after a pull of the selector and goes to the
    bucket that pull gave. *)
Fixpoint addressed (l : list Event) : Prop :=
  match l with
  | [] => True
  | EvRequest _ _ :: _ => False
  | EvPull v :: l' =>
      match l' with
      | EvRequest q _ :: l'' => req_bucket q = v /\ addressed l''
      | _ => addressed l'
      end
  | _ :: l' => addressed l'
  end.

(** The methods whose whole body is one call of the client on one object. *)
Definition single_object (op : Op) : bool :=
  match op with
  | OpExists _ | OpGetSignedUrl _ _ | OpDelete _ | OpMakePublic _
  | OpMakePrivate _ | OpGetStream _ | OpGetObject _ => true
  | _ => false
  end.

Definition is_getStream (op : Op) : bool :=
  match op with
  | OpGetStream _ => true
  | _ => false
  end.

Definition is_download (op : Op) : bool :=
  match op with
  | OpDownload _ => true
  | _ => false
  end.

(** The effects on the selector and on the client, as against those on the
    clock and on the file system. *)
Definition storage_event (e : Event) : bool :=
  match e with
  | EvSet _ | EvPull _ | EvRequest _ _ => true
  | _ => false
  end.

Definition is_mkdir (e : Event) : bool :=
  match e with
  | EvMkdirSync _ _ => true
  | _ => false
  end.

(** The call threw: it ended before it made a promise. *)
Definition throws (env : Env) (op : Op) (w : World) : bool :=
  match fst (run env (call op) w) with
  | Thrown _ => true
  | _ => false
  end.

(** What a caller does with an adapter: [bucket(b)], or one of the other
    methods.  [play] makes the calls one after the other, each awaited
    before the next. *)
Inductive Step : Type :=
| DoBucket (b : string)
| DoCall (op : Op).

Definition step (s : Step) : Prog (option Outcome) :=
  match s with
  | DoBucket b => bucket b ;;; Ret None
  | DoCall op => o <- call op ;; Ret (Some o)
  end.

Fixpoint play (l : list Step) : Prog (list (option Outcome)) :=
  match l with
  | [] => Ret []
  | s :: l' =>
      o <- step s ;;
      os <- play l' ;;
      Ret (o :: os)
  end.

(** ** Running effect trees *)

Lemma run_bind {A B : Type} (env : Env) (p : Prog A) (f : A -> Prog B) :
  forall w,
    run env (bind p f) w = run env (f (fst (run env p w))) (snd (run env p w)).
Proof.
  induction p as [a | X e k IH]; intros w; simpl; auto.
Qed.

Lemma events_bind {A B : Type} (env : Env) (p : Prog A) (f : A -> Prog B) :
  forall w,
    events env (bind p f) w =
    events env p w ++ events env (f (fst (run env p w))) (snd (run env p w)).
Proof.
  induction p as [a | X e k IH]; intros w; simpl; auto.
  now rewrite IH, app_assoc.
Qed.

Lemma log_events {A : Type} (env : Env) (p : Prog A) :
  forall w, log (snd (run env p w)) = log w ++ events env p w.
Proof.
  induction p as [a | X e k IH]; intros w; simpl.
  - now rewrite app_nil_r.
  - rewrite IH. rewrite app_assoc. f_equal.
    destruct e; simpl; auto using app_nil_r.
    destruct (existsb (String.eqb dir) (dirs w)); [reflexivity | ].
    destruct (mkdir_error env (log w) dir); reflexivity.
Qed.

(** [getUrl] with a bucket that is not the empty string is a pure function:
    it touches neither the selector nor the client. *)
Lemma run_getUrl_given (env : Env) (w : World) (location b : string) :
  b <> "" ->
  run env (getUrl location (Some b)) w =
  (("https://storage.googleapis.com/" ++ b ++ "/" ++ location)%string, w).
Proof.
  intros Hb. unfold getUrl, or_pull.
  destruct (String.eqb_spec b "") as [E | _]; [contradiction | reflexivity].
Qed.

Lemma events_getUrl_given (env : Env) (w : World) (location b : string) :
  b <> "" -> events env (getUrl location (Some b)) w = [].
Proof.
  intros Hb. unfold getUrl, or_pull.
  destruct (String.eqb_spec b "") as [E | _]; [contradiction | reflexivity].
Qed.

(** ** The discipline of the selector *)

(** The selector itself: a pull after [set b] gives [b] and clears the
    override, and a pull of a cleared selector gives the default and
    changes nothing. *)
Lemma pull_after_set (r : Resetable) (b : string) :
  Resetable.pull (Resetable.set b r) = (b, Resetable.clear r).
Proof. reflexivity. Qed.

Lemma pull_after_clear (r : Resetable) :
  Resetable.pull (Resetable.clear r) = (defaultBucket r, Resetable.clear r).
Proof. reflexivity. Qed.

Lemma NoSet_bind {A B : Type} (p : Prog A) (f : A -> Prog B) :
  NoSet p -> (forall a, NoSet (f a)) -> NoSet (bind p f).
Proof.
  induction 1 as [a | X e k He Hk IH]; intros Hf; simpl; auto.
  constructor; auto.
Qed.

Lemma NoSet_perform {X : Type} (e : Effect X) :
  sets e = false -> NoSet (perform e).
Proof. intros He. constructor; auto. intros x. constructor. Qed.

Ltac no_set :=
  repeat match goal with
    | |- NoSet (bind _ _) => apply NoSet_bind; [ | intro ]
    | |- NoSet (Ret _) => constructor
    | |- NoSet (perform _) => apply NoSet_perform; reflexivity
    | |- NoSet (match ?x with _ => _ end) => destruct x
    | |- NoSet _ =>
        progress unfold pull, request, getTime, existsSync, mkdirSync, lookup,
          or_pull, getUrl, makePublic
    end.

Lemma NoSet_call (op : Op) : NoSet (call op).
Proof.
  destruct op; simpl;
    unfold exists_, getSignedUrl, put, delete, copy, move, makePrivate,
      getStream, getObject, download;
    no_set.
Qed.

Lemma pulls_app (l l' : list Event) : pulls (l ++ l') = pulls l ++ pulls l'.
Proof. apply flat_map_app. Qed.

Lemma requests_app (l l' : list Event) :
  requests (l ++ l') = requests l ++ requests l'.
Proof. apply flat_map_app. Qed.

(** A run that never sets the selector either does not pull it and leaves
    it as it was, or pulls it: then the first pull gives the pending
    override (the default when there is none), every later pull gives the
    default, and the override is gone at the end. *)
Lemma pulls_NoSet {A : Type} (env : Env) (p : Prog A) :
  NoSet p ->
  forall w,
    (pulls (events env p w) = [] /\
     _bucket (this (snd (run env p w))) = _bucket (this w)) \/
    (exists l,
        pulls (events env p w) = Resetable.get (_bucket (this w)) :: l /\
        Forall (eq (defaultBucket (_bucket (this w)))) l /\
        _bucket (this (snd (run env p w))) =
        Resetable.clear (_bucket (this w))).
Proof.
  induction 1 as [a | X e k He Hk IH]; intros w.
  - left. split; reflexivity.
  - simpl. rewrite pulls_app.
    specialize (IH (answer env e w)
                  (logged (observe e (answer env e w))
                     (change e (answer env e w) w))).
    destruct e; try discriminate He; simpl in IH |- *.
    + right. destruct IH as [[E1 E2] | [l [E1 [E2 E3]]]].
      * exists []. rewrite E1, E2. auto.
      * exists (defaultBucket (_bucket (this w)) :: l).
        rewrite E1, E3. repeat split; auto.
    + exact IH.
    + exact IH.
    + exact IH.
    + destruct (existsb (String.eqb dir) (dirs w)); [exact IH | ].
      destruct (mkdir_error env (log w) dir); exact IH.
    + exact IH.
Qed.

(** Symbolic execution of a method: unfold it, and split on what the client
    answered and on the options. *)
Ltac unfold_methods :=
  unfold exists_, getSignedUrl, put, delete, copy, move, makePublic,
    makePrivate, getStream, getObject, download, getUrl, or_pull, bucket,
    pull, set, request, getTime, existsSync, mkdirSync, lookup, perform.

Ltac split_branch :=
  match goal with
  | |- context [match error ?r with _ => _ end] => destruct (error r) eqn:?
  | |- context [if strict_eq_true ?v then _ else _] =>
      destruct (strict_eq_true v) eqn:?
  | |- context [if String.eqb ?a ?b then _ else _] =>
      destruct (String.eqb_spec a b)
  | |- context [if negb ?b then _ else _] => destruct b eqn:?
  | |- context [match ?a with Some _ => _ | None => _ end] =>
      destruct a eqn:?
  end.

Ltac exec := unfold_methods; repeat (cbn; try split_branch).

(** A call that is to resolve the selector does so unless it throws
    first. *)
Lemma call_pulls (env : Env) (op : Op) (w : World) :
  resolves op = true -> throws env op w = false ->
  pulls (events env (call op) w) <> [].
Proof.
  unfold throws.
  destruct op; simpl resolves; intros Hr; unfold call;
    try (exec; discriminate).
  destruct bucket0 as [b | ]; simpl in Hr.
  - destruct (String.eqb_spec b ""); [subst | discriminate Hr].
    exec; discriminate.
  - exec; discriminate.
Qed.

Lemma first_request_bucket (env : Env) (op : Op) (w : World) (q : Request) :
  hd_error (requests (events env (call op) w)) = Some q ->
  req_bucket q = Resetable.get (_bucket (this w)).
Proof.
  destruct op; unfold call; exec; intros [= <-] || discriminate; reflexivity.
Qed.

Lemma call_uses_bucket (env : Env) (op : Op) (w : World) :
  resolves op = true -> throws env op w = false ->
  uses_bucket (Resetable.get (_bucket (this w))) env op w.
Proof.
  unfold throws.
  destruct op; simpl resolves; intros Hr; unfold uses_bucket, call;
    try (exec; intros; try discriminate; eexists; split; reflexivity).
  destruct bucket0 as [b | ]; simpl in Hr.
  - destruct (String.eqb_spec b ""); [subst | discriminate Hr]. reflexivity.
  - reflexivity.
Qed.

Lemma digits_string_of_uint (d : Decimal.uint) :
  all_digits (NilEmpty.string_of_uint d) = true.
Proof. induction d; simpl; auto. Qed.

Lemma digits_NilZero (d : Decimal.uint) : digits (NilZero.string_of_uint d).
Proof.
  unfold digits, NilZero.string_of_uint.
  destruct d; split; try discriminate;
    try apply digits_string_of_uint; reflexivity.
Qed.

(** Reading the printed time stamp as a decimal number gives the time
    stamp back. *)
Lemma read_number_to_string (t : Z) :
  option_map Z.of_int (NilZero.int_of_string (number_to_string t)) = Some t.
Proof.
  unfold number_to_string. rewrite NilZero.isi.
  - simpl. now rewrite DecimalZ.of_to.
  - destruct t; simpl; intros [= H]; try discriminate H.
    now apply (DecimalPos.Unsigned.to_uint_nonnil p).
  - destruct t; simpl; intros [= H].
    now apply (DecimalPos.Unsigned.to_uint_nonnil p).
Qed.

(** From the epoch on the time stamp is printed without a sign. *)
Lemma digits_number_to_string (t : Z) :
  (0 <= t)%Z -> digits (number_to_string t).
Proof.
  intros Ht. unfold number_to_string.
  destruct t as [ | p | p].
  - split; [discriminate | reflexivity].
  - exact (digits_NilZero (Pos.to_uint p)).
  - exfalso. apply Ht. reflexivity.
Qed.

(** ** The URL of an object *)

(** C2, as amended: for every location and every bucket name [b] other than
    the empty string, [getUrl(location, b)] returns exactly
    [https://storage.googleapis.com/{b}/{location}], nothing escaped.  It
    does so with every storage client and leaves the world as it was: no
    request is made, so the answer cannot depend on the object. *)
Theorem getUrl_given_bucket (env : Env) (w : World) (location b : string) :
  b <> "" ->
  run env (getUrl location (Some b)) w =
  (("https://storage.googleapis.com/" ++ b ++ "/" ++ location)%string, w).
Proof. apply run_getUrl_given. Qed.

Lemma getUrl_given_bucket_witness :
  "media" <> "" /\
  run env_ok (getUrl "photos/cat.png" (Some "media")) (fresh "d") =
  ("https://storage.googleapis.com/media/photos/cat.png", fresh "d").
Proof.
  split; [discriminate | ].
  apply (getUrl_given_bucket env_ok (fresh "d") "photos/cat.png" "media").
  discriminate.
Defined.

(** C2 as stated fails for the empty string, which is a string a caller can
    pass: the URL is then built from the selector's bucket. *)
Lemma getUrl_empty_bucket_counterexample :
  fst (run env_ok (getUrl "a.txt" (Some "")) (fresh "d")) =
  "https://storage.googleapis.com/d/a.txt" /\
  fst (run env_ok (getUrl "a.txt" (Some "")) (fresh "d")) <>
  ("https://storage.googleapis.com/" ++ "" ++ "/" ++ "a.txt")%string.
Proof. split; [reflexivity | discriminate]. Qed.

(** C9: a bucket argument is tested for truthiness.  [getUrl(location, "")]
    is the same effect tree as [getUrl(location)]: with the empty string as
    without a bucket, [getUrl] pulls the selector, once, and returns the URL
    of the location in the bucket pulled.  [copy] and [move] with [""] for
    [destBucket] are the same effect trees as without one; their request
    then names the source bucket as the destination. *)
Theorem empty_bucket_is_absent (env : Env) (w : World)
  (location src dest : string) (options : Options) :
  getUrl location (Some "") = getUrl location None /\
  copy src dest (Some "") options = copy src dest None options /\
  move src dest (Some "") options = move src dest None options /\
  (let b := Resetable.get (_bucket (this w)) in
   hd_error (requests (events env (copy src dest (Some "") options) w)) =
   Some (ReqCopy b src b dest options) /\
   hd_error (requests (events env (move src dest (Some "") options) w)) =
   Some (ReqMove b src b dest options) /\
   (forall a,
       a = None \/ a = Some "" ->
       fst (run env (getUrl location a) w) =
       ("https://storage.googleapis.com/" ++ b ++ "/" ++ location)%string /\
       events env (getUrl location a) w = [EvPull b] /\
       _bucket (this (snd (run env (getUrl location a) w))) =
       Resetable.clear (_bucket (this w)))).
Proof.
  repeat split; try reflexivity; try (exec; reflexivity);
    destruct H as [-> | ->]; reflexivity.
Qed.

(** C10: [getUrl] with a bucket that is not the empty string leaves the
    selector, and the whole world, as it was.  An override set by an
    earlier [bucket(b0)] is still pending after it, and the next call that
    resolves the selector (a [download] that throws before it gets there
    does not) works on [b0]. *)
Theorem getUrl_given_bucket_keeps_override (env : Env) (w : World)
  (location b b0 : string) (op : Op) :
  b <> "" ->
  resolves op = true ->
  snd (run env (getUrl location (Some b)) w) = w /\
  let w' := snd (run env (bucket b0 ;;; getUrl location (Some b)) w) in
  pendingOverride (_bucket (this w')) = Some b0 /\
  (throws env op w' = false -> uses_bucket b0 env op w').
Proof.
  intros Hb Hop. split.
  - now rewrite run_getUrl_given.
  - intros w'.
    assert (E : _bucket (this w') = Resetable.set b0 (_bucket (this w))).
    { subst w'. rewrite run_bind, run_getUrl_given by assumption. reflexivity. }
    split.
    + now rewrite E.
    + intros Hth.
      replace b0 with (Resetable.get (_bucket (this w'))) by now rewrite E.
      now apply call_uses_bucket.
Qed.

Lemma getUrl_given_bucket_keeps_override_witness :
  "media" <> "" /\
  resolves (OpExists "a.txt") = true /\
  snd (run env_ok (getUrl "a.txt" (Some "media")) (fresh "d")) = fresh "d" /\
  let w' :=
    snd (run env_ok (bucket "b0" ;;; getUrl "a.txt" (Some "media")) (fresh "d"))
  in
  pendingOverride (_bucket (this w')) = Some "b0" /\
  (throws env_ok (OpExists "a.txt") w' = false ->
   uses_bucket "b0" env_ok (OpExists "a.txt") w').
Proof.
  split; [discriminate | split; [reflexivity | ]].
  apply (getUrl_given_bucket_keeps_override env_ok (fresh "d")
           "a.txt" "media" "b0" (OpExists "a.txt")).
  - discriminate.
  - reflexivity.
Defined.

(** ** One override, one resolution *)



(** ** [put] *)

(** C1 at a failing input: with default bucket [d], [bucket("b")] followed
    by a successful [put("f.txt", ...)] resolves the selector twice, once
    before the upload and once more after it.  The upload goes to [b], the
    second resolution gives [d], and the promise resolves to a URL in
    [d]. *)
Theorem put_resolves_selector_twice :
  let content := VString "/tmp/upload" in
  let upload :=
    ReqUpload "b" content
      [("destination", VString "f.txt"); ("contentType", VString "text/plain")]
  in
  fst (run env_ok (bucket "b" ;;; put "f.txt" content []) (fresh "d")) =
  Resolved (VString "https://storage.googleapis.com/d/f.txt") /\
  events env_ok (bucket "b" ;;; put "f.txt" content []) (fresh "d") =
  [EvSet "b"; EvPull "b"; EvRequest upload ok; EvPull "d"].
Proof. split; reflexivity. Qed.

(** Whatever the world, a [put] whose upload succeeds pulls the selector
    before the upload and again after it. *)
Lemma put_success_pulls (env : Env) (w : World) (location : string)
  (content : Value) (options : Options) :
  let b := Resetable.get (_bucket (this w)) in
  let d := defaultBucket (_bucket (this w)) in
  let q :=
    ReqUpload b content
      (Object_assign options
         [("destination", VString location);
          ("contentType", mime_lookup env location)]) in
  error (respond env (log w ++ [EvPull b]) q) = None ->
  exists l,
    events env (put location content options) w =
    EvPull b :: EvRequest q (respond env (log w ++ [EvPull b]) q)
      :: EvPull d :: l.
Proof.
  intros b d q Hok. subst b d q. unfold put. unfold_methods. cbn.
  cbn in Hok. rewrite Hok. cbn.
  eexists. reflexivity.
Qed.

(** ** [copy] and [move] *)

(** C4 at a failing input: with default bucket [d], a successful
    [copy("a.txt", "b.txt", "other", { public: true })] copies into the
    bucket [other] and then asks the client to make [b.txt] public in
    [d]. *)
Theorem copy_publishes_in_default_bucket :
  let options := [("public", VBool true)] in
  events env_ok (copy "a.txt" "b.txt" (Some "other") options) (fresh "d") =
  [EvPull "d";
   EvRequest (ReqCopy "d" "a.txt" "other" "b.txt" options) ok;
   EvPull "d";
   EvRequest (ReqMakePublic "d" "b.txt") ok] /\
  events env_ok (move "a.txt" "b.txt" (Some "other") options) (fresh "d") =
  [EvPull "d";
   EvRequest (ReqMove "d" "a.txt" "other" "b.txt" options) ok;
   EvPull "d";
   EvRequest (ReqMakePublic "d" "b.txt") ok].
Proof. split; reflexivity. Qed.

(** C6: [copy] and [move] pull the selector first; the request that follows
    names the pulled bucket as the source.  Its destination bucket is
    [destBucket] when that is given and is not the empty string, and the
    pulled bucket when [destBucket] is absent or empty.  Nothing comes
    between the pull and the request, and the only requests after it are
    those of [makePublic]. *)
Theorem copy_move_buckets (t : Transfer) (env : Env) (w : World)
  (src dest : string) (destBucket : option string) (options : Options) :
  let b := Resetable.get (_bucket (this w)) in
  exists db r rest,
    events env (transfer t src dest destBucket options) w =
    EvPull b :: EvRequest (transfer_request t b src db dest options) r :: rest /\
    forallb is_makePublic (requests rest) = true /\
    (forall s, destBucket = Some s -> s <> "" -> db = s) /\
    (destBucket = None \/ destBucket = Some "" -> db = b).
Proof.
  intros b. subst b.
  exists (js_or destBucket (Resetable.get (_bucket (this w)))).
  assert (D : (forall s, destBucket = Some s -> s <> "" ->
                 js_or destBucket (Resetable.get (_bucket (this w))) = s) /\
              (destBucket = None \/ destBucket = Some "" ->
               js_or destBucket (Resetable.get (_bucket (this w))) =
               Resetable.get (_bucket (this w)))).
  { split.
    - intros s -> Hs. simpl. apply String.eqb_neq in Hs. now rewrite Hs.
    - intros [-> | ->]; reflexivity. }
  destruct D as [D1 D2].
  destruct t; unfold transfer; exec; do 2 eexists;
    (split; [reflexivity | split; [reflexivity | split; assumption]]).
Qed.

(** Once a call has pulled the selector, [getUrl] gives the same URL at the
    end of the call as in the middle of it. *)
Lemma getUrl_after_pull (env : Env) (w w' : World) (dest db : string) :
  _bucket (this w') = Resetable.clear (_bucket (this w)) ->
  fst (run env (getUrl dest (Some db)) w') =
  ("https://storage.googleapis.com/"
     ++ (if String.eqb db "" then defaultBucket (_bucket (this w)) else db)
     ++ "/" ++ dest)%string.
Proof.
  intros E. unfold getUrl, or_pull.
  destruct (String.eqb db ""); cbn; [rewrite E | ]; reflexivity.
Qed.

(** What [copy] and [move] do, from the answers of the client. *)
Lemma run_transfer (t : Transfer) (env : Env) (w : World)
  (src dest : string) (destBucket : option string) (options : Options) :
  let b := Resetable.get (_bucket (this w)) in
  let d := defaultBucket (_bucket (this w)) in
  let db := js_or destBucket b in
  let q := transfer_request t b src db dest options in
  let r := respond env (log w ++ [EvPull b]) q in
  let r' :=
    respond env (log w ++ [EvPull b; EvRequest q r; EvPull d])
      (ReqMakePublic d dest) in
  let url :=
    ("https://storage.googleapis.com/"
       ++ (if String.eqb db "" then d else db) ++ "/" ++ dest)%string in
  _bucket (this (snd (run env (transfer t src dest destBucket options) w))) =
  Resetable.clear (_bucket (this w)) /\
  fst (run env (transfer t src dest destBucket options) w) =
  match error r with
  | Some e => Rejected e
  | None =>
      match get_prop "public" options with
      | VBool true =>
          match error r' with
          | Some e => Rejected e
          | None => Resolved (VString url)
          end
      | _ => Resolved (VString url)
      end
  end.
Proof.
  intros b d db q r r' url. subst b d db q r r' url.
  destruct t; unfold transfer, transfer_request;
    unfold copy, move; unfold_methods; cbn;
    repeat rewrite <- app_assoc; cbn;
    (destruct (error (respond env _ _)); [split; reflexivity | ]);
    (destruct (get_prop "public" options) as [ | [ | ] | | | ]; cbn;
     repeat rewrite <- app_assoc; cbn;
     try (destruct (error (respond env _ (ReqMakePublic _ _))); cbn;
          [split; reflexivity | ]);
     destruct (String.eqb_spec
                 (js_or destBucket (Resetable.get (_bucket (this w)))) "")
       as [E | E]; cbn; try rewrite E; split; reflexivity).
Qed.

(** C5: when the client copies (moves) the object and, with
    [public: true], also grants [makePublic], the promise of [copy] ([move])
    resolves, and its value is what [getUrl(dest, destBucket)] gives for the
    destination bucket of the call, [destBucket] when given and not empty,
    the source bucket otherwise: the string
    [https://storage.googleapis.com/{destBucket}/{dest}] for every
    destination bucket that has a name.  It is so with [public: true] and
    without. *)
Theorem copy_move_resolve_to_destination_url (t : Transfer) (env : Env)
  (w : World) (src dest : string) (destBucket : option string)
  (options : Options) :
  let b := Resetable.get (_bucket (this w)) in
  let d := defaultBucket (_bucket (this w)) in
  let q := transfer_request t b src (js_or destBucket b) dest options in
  let r := respond env (log w ++ [EvPull b]) q in
  let r' :=
    respond env (log w ++ [EvPull b; EvRequest q r; EvPull d])
      (ReqMakePublic d dest) in
  let outcome := fst (run env (transfer t src dest destBucket options) w) in
  let w' := snd (run env (transfer t src dest destBucket options) w) in
  error r = None ->
  (get_prop "public" options = VBool true -> error r' = None) ->
  exists db,
    (forall s, destBucket = Some s -> s <> "" -> db = s) /\
    (destBucket = None \/ destBucket = Some "" -> db = b) /\
    outcome = Resolved (VString (fst (run env (getUrl dest (Some db)) w'))) /\
    (db <> "" ->
     outcome =
     Resolved (VString ("https://storage.googleapis.com/" ++ db ++ "/" ++ dest))).
Proof.
  intros b d q r r' outcome w' Hr Hpub.
  destruct (run_transfer t env w src dest destBucket options) as [S O].
  fold b d q r r' outcome in O. fold b w' in S.
  exists (js_or destBucket b).
  split; [ | split; [ | split]].
  - intros s -> Hs. simpl. apply String.eqb_neq in Hs. now rewrite Hs.
  - intros [-> | ->]; reflexivity.
  - rewrite (getUrl_after_pull env w w') by exact S.
    rewrite O, Hr.
    destruct (get_prop "public" options) as [ | [ | ] | | | ];
      try reflexivity.
    now rewrite Hpub.
  - intros Hdb. apply String.eqb_neq in Hdb.
    rewrite O, Hr, Hdb.
    destruct (get_prop "public" options) as [ | [ | ] | | | ];
      try reflexivity.
    now rewrite Hpub.
Qed.

Lemma copy_move_resolve_to_destination_url_witness :
  let options := [("public", VBool true)] in
  let q := ReqMove "d" "a.txt" "other" "b.txt" options in
  let outcome :=
    fst (run env_ok (transfer Move "a.txt" "b.txt" (Some "other") options)
           (fresh "d")) in
  let w' :=
    snd (run env_ok (transfer Move "a.txt" "b.txt" (Some "other") options)
           (fresh "d")) in
  error (respond env_ok [EvPull "d"] q) = None /\
  (get_prop "public" options = VBool true ->
   error (respond env_ok [EvPull "d"; EvRequest q ok; EvPull "d"]
            (ReqMakePublic "d" "b.txt")) = None) /\
  exists db,
    (forall s, Some "other" = Some s -> s <> "" -> db = s) /\
    (Some "other" = None \/ Some "other" = Some "" -> db = "d") /\
    outcome =
    Resolved (VString (fst (run env_ok (getUrl "b.txt" (Some db)) w'))) /\
    (db <> "" ->
     outcome =
     Resolved (VString ("https://storage.googleapis.com/" ++ db ++ "/" ++ "b.txt"))).
Proof.
  intros options q outcome w'.
  split; [reflexivity | split; [reflexivity | ]].
  apply (copy_move_resolve_to_destination_url Move env_ok (fresh "d")
           "a.txt" "b.txt" (Some "other") options); reflexivity.
Defined.

(** The same without [public], on the bucket of the selector: [copy]
    after [bucket("b")] resolves to the URL in [b]. *)
Lemma copy_without_public_resolves :
  fst (run env_ok (bucket "b" ;;; copy "a.txt" "b.txt" None []) (fresh "d")) =
  Resolved (VString "https://storage.googleapis.com/b/b.txt").
Proof. reflexivity. Qed.

(** C7: with [public: true], when the client copies (or moves) the object
    and then refuses [makePublic] with an error, the promise rejects with
    that very error.  The refused request is the last thing the call does:
    nothing is undone, and no value tells that the object was copied. *)
Theorem publish_failure_is_surfaced (t : Transfer) (env : Env) (w : World)
  (src dest : string) (destBucket : option string) (options : Options)
  (err : BackendError) :
  let b := Resetable.get (_bucket (this w)) in
  let d := defaultBucket (_bucket (this w)) in
  let q := transfer_request t b src (js_or destBucket b) dest options in
  let r := respond env (log w ++ [EvPull b]) q in
  let publish := ReqMakePublic d dest in
  let r' := respond env (log w ++ [EvPull b; EvRequest q r; EvPull d]) publish in
  get_prop "public" options = VBool true ->
  error r = None ->
  error r' = Some err ->
  fst (run env (transfer t src dest destBucket options) w) = Rejected err /\
  events env (transfer t src dest destBucket options) w =
  [EvPull b; EvRequest q r; EvPull d; EvRequest publish r'].
Proof.
  intros b d q r publish r' Hpub Hr Hr'. subst b d q r publish r'.
  destruct t; unfold transfer, transfer_request in *;
    unfold copy, move; unfold_methods; cbn;
    rewrite Hr; cbn; rewrite Hpub; cbn;
    repeat rewrite <- app_assoc; cbn;
    rewrite Hr'; cbn; split; reflexivity.
Qed.

Lemma publish_failure_is_surfaced_witness :
  let options := [("public", VBool true)] in
  let q := ReqMove "d" "a.txt" "other" "b.txt" options in
  let publish := ReqMakePublic "d" "b.txt" in
  get_prop "public" options = VBool true /\
  error (respond env_acl_denied [EvPull "d"] q) = None /\
  error (respond env_acl_denied [EvPull "d"; EvRequest q ok; EvPull "d"] publish)
  = Some (MkError "forbidden") /\
  fst (run env_acl_denied (transfer Move "a.txt" "b.txt" (Some "other") options)
         (fresh "d")) = Rejected (MkError "forbidden") /\
  events env_acl_denied (transfer Move "a.txt" "b.txt" (Some "other") options)
    (fresh "d") =
  [EvPull "d"; EvRequest q ok; EvPull "d"; EvRequest publish (failed "forbidden")].
Proof.
  intros options q publish.
  split; [reflexivity | split; [reflexivity | split; [reflexivity | ]]].
  apply (publish_failure_is_surfaced Move env_acl_denied (fresh "d")
           "a.txt" "b.txt" (Some "other") options (MkError "forbidden"));
    reflexivity.
Defined.

(** ** [download] *)

(** What [download] does with the file system and the selector, from what
    [mkdirSync] does. *)
Lemma download_fs (env : Env) (w : World) (location : string) :
  let t := clock env (log w) in
  let present := existsb (String.eqb "tmp") (dirs w) in
  let thrown :=
    if present then None
    else mkdir_error env (log w ++ [EvNow t; EvExistsSync "tmp" false]) "tmp" in
  dirs (snd (run env (download location) w)) =
  (if present then dirs w
   else match thrown with
        | None => "tmp" :: dirs w
        | Some _ => dirs w
        end) /\
  filter is_mkdir (events env (download location) w) =
  (if present then [] else [EvMkdirSync "tmp" thrown]) /\
  match thrown with
  | Some e =>
      fst (run env (download location) w) = Thrown e /\
      events env (download location) w =
      [EvNow t; EvExistsSync "tmp" false; EvMkdirSync "tmp" (Some e)] /\
      _bucket (this (snd (run env (download location) w))) = _bucket (this w)
  | None =>
      forall e, fst (run env (download location) w) <> Thrown e
  end.
Proof.
  intros t present thrown. subst t present thrown.
  unfold download. unfold_methods. cbn -[String.eqb existsb].
  destruct (existsb (String.eqb "tmp") (dirs w)) eqn:Hp;
    cbn -[String.eqb existsb]; repeat rewrite <- app_assoc;
    cbn -[String.eqb existsb]; try rewrite Hp.
  - destruct (error (respond env _ _));
      (split; [reflexivity | split; [reflexivity | intros e; discriminate]]).
  - destruct (mkdir_error env _ "tmp") as [e | ];
      cbn -[String.eqb existsb]; repeat rewrite <- app_assoc;
      cbn -[String.eqb existsb].
    + split; [reflexivity | split; [reflexivity | ]].
      split; [reflexivity | split; reflexivity].
    + destruct (error (respond env _ _));
        (split; [reflexivity | split; [reflexivity | intros e; discriminate]]).
Qed.

(** C8: when [mkdirSync] does not throw and the client downloads the
    object, the promise of [download(location)] resolves to
    [tmp/{epoch-millis}-{location}]: what stands between [tmp/] and the
    dash reads, as a decimal number, as the clock's reading in milliseconds,
    and from the epoch on it is a string of digits, so that the path is
    [tmp/<digits>-<location>].  The call reads the clock, asks whether [tmp]
    exists, creates it when it does not, and only then pulls the selector
    and sends the request; that request is the last thing it does, so the
    file is left where it is. *)
Theorem download_path (env : Env) (w : World) (location : string) :
  let t := clock env (log w) in
  let dest := ("tmp/" ++ number_to_string t ++ "-" ++ location)%string in
  let present := existsb (String.eqb "tmp") (dirs w) in
  let b := Resetable.get (_bucket (this w)) in
  let before :=
    [EvNow t; EvExistsSync "tmp" present]
      ++ (if present then [] else [EvMkdirSync "tmp" None])
      ++ [EvPull b] in
  let q := ReqDownload b location dest in
  let r := respond env (log w ++ before) q in
  (present = false ->
   mkdir_error env (log w ++ [EvNow t; EvExistsSync "tmp" false]) "tmp" = None) ->
  error r = None ->
  exists ds,
    fst (run env (download location) w) =
    Resolved (VString ("tmp/" ++ ds ++ "-" ++ location)) /\
    option_map Z.of_int (NilZero.int_of_string ds) = Some t /\
    ((0 <= t)%Z -> digits ds) /\
    events env (download location) w = before ++ [EvRequest q r] /\
    In "tmp" (dirs (snd (run env (download location) w))).
Proof.
  intros t dest present b before q r Hmk Hr.
  exists (number_to_string t).
  split; [ | split; [apply read_number_to_string
                    | split; [apply digits_number_to_string | ]]].
  - subst t dest present b before q r.
    unfold download. unfold_methods. cbn -[String.eqb existsb].
    destruct (existsb (String.eqb "tmp") (dirs w)) eqn:Hp;
      cbn -[String.eqb existsb] in Hr, Hmk |- *;
      repeat rewrite <- app_assoc in *;
      cbn -[String.eqb existsb] in Hr, Hmk |- *;
      try rewrite Hp; try rewrite (Hmk eq_refl);
      cbn -[String.eqb existsb]; repeat rewrite <- app_assoc;
      cbn -[String.eqb existsb]; rewrite Hr; reflexivity.
  - assert (Hin : forall l, existsb (String.eqb "tmp") l = true -> In "tmp" l).
    { intros l H. apply existsb_exists in H. destruct H as [x [Hx E]].
      apply String.eqb_eq in E. now subst. }
    subst t dest present b before q r.
    unfold download. unfold_methods. cbn -[String.eqb existsb].
    destruct (existsb (String.eqb "tmp") (dirs w)) eqn:Hp;
      cbn -[String.eqb existsb] in Hr, Hmk |- *;
      repeat rewrite <- app_assoc in *;
      cbn -[String.eqb existsb] in Hr, Hmk |- *;
      try rewrite Hp; try rewrite (Hmk eq_refl);
      cbn -[String.eqb existsb]; repeat rewrite <- app_assoc;
      cbn -[String.eqb existsb]; rewrite Hr; cbn -[String.eqb existsb];
      (split; [reflexivity | auto]).
Qed.

Lemma download_path_witness :
  let q := ReqDownload "d" "a.txt" "tmp/1700000000000-a.txt" in
  let before :=
    [EvNow 1700000000000; EvExistsSync "tmp" false; EvMkdirSync "tmp" None;
     EvPull "d"] in
  (false = false ->
   mkdir_error env_ok [EvNow 1700000000000; EvExistsSync "tmp" false] "tmp"
   = None) /\
  error (respond env_ok before q) = None /\
  exists ds,
    fst (run env_ok (download "a.txt") (fresh "d")) =
    Resolved (VString ("tmp/" ++ ds ++ "-" ++ "a.txt")) /\
    option_map Z.of_int (NilZero.int_of_string ds) = Some 1700000000000%Z /\
    ((0 <= 1700000000000)%Z -> digits ds) /\
    events env_ok (download "a.txt") (fresh "d") = before ++ [EvRequest q ok] /\
    In "tmp" (dirs (snd (run env_ok (download "a.txt") (fresh "d")))).
Proof.
  intros q before.
  split; [reflexivity | split; [reflexivity | ]].
  apply (download_path env_ok (fresh "d") "a.txt"); reflexivity.
Defined.

(** With a clock set five milliseconds before the epoch the time stamp has
    a sign, and what follows [tmp/] is not a string of digits. *)
Lemma download_before_epoch :
  fst (run env_before_epoch (download "a.txt") (fresh "d")) =
  Resolved (VString "tmp/-5-a.txt").
Proof. reflexivity. Qed.

(** ** Errors of the client *)

(** X1: when the client refuses the first request of a call, the promise
    rejects with the client's error and the call stops there: one pull of
    the selector, one request, no second attempt.  [getStream] has no
    callback and is the one method this does not hold for. *)
Theorem backend_failure_is_forwarded (env : Env) (w : World) (op : Op)
  (r : Response) (rest : list Response) (e : BackendError) :
  is_getStream op = false ->
  responses (events env (call op) w) = r :: rest ->
  error r = Some e ->
  fst (run env (call op) w) = Rejected e /\
  rest = [] /\
  pulls (events env (call op) w) = [Resetable.get (_bucket (this w))].
Proof.
  destruct op; simpl is_getStream; try discriminate; intros _; unfold call;
    exec; intros H1 H2; inversion H1; subst; clear H1;
    try congruence; repeat split; congruence.
Qed.

Lemma backend_failure_is_forwarded_witness :
  let op := OpMakePrivate "a.txt" in
  is_getStream op = false /\
  responses (events env_acl_denied (call op) (fresh "d")) =
  [failed "forbidden"] /\
  error (failed "forbidden") = Some (MkError "forbidden") /\
  fst (run env_acl_denied (call op) (fresh "d")) =
  Rejected (MkError "forbidden") /\
  @nil Response = [] /\
  pulls (events env_acl_denied (call op) (fresh "d")) = ["d"].
Proof.
  intros op.
  split; [reflexivity | split; [reflexivity | split; [reflexivity | ]]].
  apply (backend_failure_is_forwarded env_acl_denied (fresh "d") op
           (failed "forbidden") [] (MkError "forbidden")); reflexivity.
Defined.

(** ** Where requests go *)

(** X2: in every call, each request to the client comes right after a pull of
    the selector and is addressed to the bucket that pull gave, the one
    [this.storage.bucket(...)] is called with.  (The destination bucket
    that a [copy] or [move] request names is another matter, see C6.) *)
Theorem requests_follow_the_selector (env : Env) (w : World) (op : Op) :
  addressed (events env (call op) w).
Proof.
  destruct op; unfold call; exec; auto.
Qed.

(** X3: [exists], [getSignedUrl], [delete], [makePublic], [makePrivate],
    [getStream] and [getObject] pull the selector once and then call the
    client once, on the bucket pulled; they do nothing else, whatever the
    client answers. *)
Theorem single_object_methods (env : Env) (w : World) (op : Op) :
  single_object op = true ->
  let b := Resetable.get (_bucket (this w)) in
  exists q,
    req_bucket q = b /\
    events env (call op) w =
    [EvPull b; EvRequest q (respond env (log w ++ [EvPull b]) q)] /\
    _bucket (this (snd (run env (call op) w))) =
    Resetable.clear (_bucket (this w)).
Proof.
  destruct op; simpl single_object; try discriminate; intros _ b; subst b;
    unfold call; exec; eexists; repeat split; reflexivity.
Qed.

Lemma single_object_methods_witness :
  single_object (OpDelete "a.txt") = true /\
  exists q,
    req_bucket q = "b" /\
    events env_ok (call (OpDelete "a.txt"))
      (snd (run env_ok (bucket "b") (fresh "d"))) =
    [EvPull "b"; EvRequest q (respond env_ok ([EvSet "b"] ++ [EvPull "b"]) q)] /\
    _bucket (this (snd (run env_ok (call (OpDelete "a.txt"))
                          (snd (run env_ok (bucket "b") (fresh "d")))))) =
    Resetable.clear (Resetable.set "b" (Resetable.new "d")).
Proof.
  split; [reflexivity | ].
  apply (single_object_methods env_ok
           (snd (run env_ok (bucket "b") (fresh "d"))) (OpDelete "a.txt")).
  reflexivity.
Defined.

Lemma addressed_rejects_other_bucket :
  ~ addressed [EvPull "a"; EvRequest (ReqExists "b" "x") ok].
Proof. simpl. intros [H _]. discriminate H. Qed.

(** ** More on [put] *)

(** X4: the options [put] hands to the client: [destination] is the location
    and [contentType] is what [mime.lookup] gives for it, also when the
    caller's options carry these keys; every other key of the caller's
    options, [public] among them, is passed on as it is. *)
Theorem put_upload_options (env : Env) (w : World) (location : string)
  (content : Value) (options : Options) :
  exists o,
    hd_error (requests (events env (put location content options) w)) =
    Some (ReqUpload (Resetable.get (_bucket (this w))) content o) /\
    get_prop "destination" o = VString location /\
    get_prop "contentType" o = mime_lookup env location /\
    forall key,
      key <> "destination" -> key <> "contentType" ->
      get_prop key o = get_prop key options.
Proof.
  eexists. split; [ | split; [ | split]].
  - unfold put. unfold_methods. cbn. reflexivity.
  - reflexivity.
  - reflexivity.
  - intros key H1 H2. unfold Object_assign. simpl app.
    unfold get_prop; fold get_prop.
    destruct (String.eqb_spec "destination" key); [congruence | ].
    destruct (String.eqb_spec "contentType" key); [congruence | ].
    reflexivity.
Qed.

(** X5: when the upload succeeds, [put] resolves to the URL of the location in
    the default bucket of the adapter, whatever bucket the upload went to.
    With no override pending that is the bucket of the upload. *)
Theorem put_resolves_to_default_bucket_url (env : Env) (w : World)
  (location : string) (content : Value) (options : Options) :
  let b := Resetable.get (_bucket (this w)) in
  let d := defaultBucket (_bucket (this w)) in
  let q :=
    ReqUpload b content
      (Object_assign options
         [("destination", VString location);
          ("contentType", mime_lookup env location)]) in
  error (respond env (log w ++ [EvPull b]) q) = None ->
  fst (run env (put location content options) w) =
  Resolved (VString ("https://storage.googleapis.com/" ++ d ++ "/" ++ location))
  /\
  (pendingOverride (_bucket (this w)) = None -> req_bucket q = d).
Proof.
  intros b d q Hok. subst b d q. split.
  - unfold put. unfold_methods. cbn. cbn in Hok. rewrite Hok. cbn.
    destruct (String.eqb_spec (defaultBucket (_bucket (this w))) "") as [E | E];
      cbn; [rewrite E | ]; reflexivity.
  - intros Hnone. unfold Resetable.get. rewrite Hnone. reflexivity.
Qed.

Lemma put_resolves_to_default_bucket_url_witness :
  let q :=
    ReqUpload "d" (VString "/tmp/upload")
      [("destination", VString "f.txt"); ("contentType", VString "text/plain");
       ("public", VBool true)] in
  error (respond env_ok [EvPull "d"] q) = None /\
  fst (run env_ok (put "f.txt" (VString "/tmp/upload") [("public", VBool true)])
         (fresh "d")) =
  Resolved (VString "https://storage.googleapis.com/d/f.txt") /\
  (@None string = None -> req_bucket q = "d").
Proof.
  intros q. split; [reflexivity | ].
  apply (put_resolves_to_default_bucket_url env_ok (fresh "d") "f.txt"
           (VString "/tmp/upload") [("public", VBool true)]).
  reflexivity.
Defined.

(** ** More on [copy] and [move] *)

Lemma strict_eq_true_iff (v : Value) :
  strict_eq_true v = true <-> v = VBool true.
Proof.
  split; [ | intros ->; reflexivity].
  destruct v as [ | [ | ] | | | ]; simpl; intros H;
    try discriminate H; reflexivity.
Qed.

(** X6: [copy] and [move] ask for [makePublic] exactly when the client has
    copied (moved) the object and [options.public] is the boolean [true]:
    then the requests are the transfer and a [makePublic] of [dest] in the
    default bucket.  When the client refused the transfer, or [public] is
    anything but the boolean [true] (absent, [false], a string, a number),
    the transfer is the only request. *)
Theorem transfer_publishes_iff (t : Transfer) (env : Env) (w : World)
  (src dest : string) (destBucket : option string) (options : Options) :
  let b := Resetable.get (_bucket (this w)) in
  let d := defaultBucket (_bucket (this w)) in
  let q := transfer_request t b src (js_or destBucket b) dest options in
  let r := respond env (log w ++ [EvPull b]) q in
  let sent := requests (events env (transfer t src dest destBucket options) w) in
  (error r = None -> get_prop "public" options = VBool true ->
   sent = [q; ReqMakePublic d dest]) /\
  (get_prop "public" options <> VBool true -> sent = [q]) /\
  (error r <> None -> sent = [q]).
Proof.
  intros b d q r sent. subst b d q r sent.
  assert (E : requests (events env (transfer t src dest destBucket options) w) =
              transfer_request t (Resetable.get (_bucket (this w))) src
                (js_or destBucket (Resetable.get (_bucket (this w)))) dest
                options
              :: match error (respond env
                                (log w ++
                                 [EvPull (Resetable.get (_bucket (this w)))])
                                (transfer_request t
                                   (Resetable.get (_bucket (this w))) src
                                   (js_or destBucket
                                      (Resetable.get (_bucket (this w))))
                                   dest options)) with
                 | None =>
                     if strict_eq_true (get_prop "public" options)
                     then [ReqMakePublic (defaultBucket (_bucket (this w))) dest]
                     else []
                 | Some _ => []
                 end).
  { destruct t; unfold transfer, transfer_request; exec; reflexivity. }
  rewrite E. split; [ | split].
  - intros -> Hp. apply strict_eq_true_iff in Hp. now rewrite Hp.
  - intros Hp.
    destruct (strict_eq_true (get_prop "public" options)) eqn:S.
    + apply strict_eq_true_iff in S. contradiction.
    + now destruct (error _).
  - intros Hr. destruct (error _); [reflexivity | contradiction].
Qed.

(** A [public] that is the string ["true"] does not publish. *)
Lemma public_string_does_not_publish :
  requests (events env_ok
              (copy "a.txt" "b.txt" None [("public", VString "true")])
              (fresh "d")) =
  [ReqCopy "d" "a.txt" "d" "b.txt" [("public", VString "true")]].
Proof. reflexivity. Qed.

(** ** What a sequence of calls keeps *)

Lemma run_keeps_dirs {A : Type} (env : Env) (p : Prog A) (d : string) :
  forall w, In d (dirs w) -> In d (dirs (snd (run env p w))).
Proof.
  induction p as [a | X e k IH]; intros w Hd; cbn [run]; auto.
  apply IH. destruct e; simpl; auto.
  destruct (existsb (String.eqb dir) (dirs w)); [exact Hd | ].
  destruct (mkdir_error env (log w) dir); simpl; auto.
Qed.

Lemma NoSet_play_calls (ops : list Op) : NoSet (play (map DoCall ops)).
Proof.
  induction ops as [ | op ops IH]; simpl.
  - constructor.
  - apply NoSet_bind.
    + apply NoSet_bind; [apply NoSet_call | intro; constructor].
    + intro. apply NoSet_bind; [exact IH | intro; constructor].
Qed.

(** X8: an adapter on which [bucket] is never called works on [config.bucket]
    for good: after any number of calls, whatever they were and however they
    ended, the next call that resolves the selector (that is not a
    [download] that throws) works on [config.bucket]. *)
Theorem without_bucket_calls_use_config_bucket (env : Env) (config : Config)
  (ops : list Op) (op : Op) (ds : list string) (l : list Event) :
  resolves op = true ->
  let w := {| this := constructor config; dirs := ds; log := l |} in
  let w' := snd (run env (play (map DoCall ops)) w) in
  throws env op w' = false ->
  uses_bucket (config_bucket config) env op w'.
Proof.
  intros Hop w w' Hth.
  assert (E : Resetable.get (_bucket (this w')) = config_bucket config).
  { destruct (pulls_NoSet env _ (NoSet_play_calls ops) w)
      as [[_ S] | [x [_ [_ S]]]]; fold w' in S; rewrite S; reflexivity. }
  rewrite <- E. now apply call_uses_bucket.
Qed.

Lemma without_bucket_calls_use_config_bucket_witness :
  let config := {| config_keyFilename := "key.json"; config_bucket := "d" |} in
  let ops := [OpPut "a.txt" (VString "/tmp/upload") []; OpGetUrl "a.txt" None] in
  let w := {| this := constructor config; dirs := []; log := [] |} in
  let w' := snd (run env_acl_denied (play (map DoCall ops)) w) in
  resolves (OpDelete "a.txt") = true /\
  throws env_acl_denied (OpDelete "a.txt") w' = false /\
  uses_bucket "d" env_acl_denied (OpDelete "a.txt") w'.
Proof.
  intros config ops w w'.
  split; [reflexivity | split; [reflexivity | ]].
  apply (without_bucket_calls_use_config_bucket env_acl_denied config ops
           (OpDelete "a.txt") [] []); reflexivity.
Defined.

(** X9: of two [bucket] calls in a row the second one counts: the next call
    that resolves the selector works on its bucket, and the first override
    is never used. *)
Theorem last_bucket_call_wins (env : Env) (w : World) (b1 b2 : string)
  (op : Op) :
  resolves op = true ->
  let w' := snd (run env (bucket b1 ;;; bucket b2) w) in
  throws env op w' = false ->
  uses_bucket b2 env op w' /\
  (b1 <> b2 -> b1 <> defaultBucket (_bucket (this w)) ->
   ~ In b1 (pulls (events env (call op) w'))).
Proof.
  intros Hop w' Hth.
  assert (E : _bucket (this w') = Resetable.set b2 (_bucket (this w)))
    by reflexivity.
  split.
  - replace b2 with (Resetable.get (_bucket (this w'))) by now rewrite E.
    now apply call_uses_bucket.
  - intros N1 N2.
    destruct (pulls_NoSet env (call op) (NoSet_call op) w')
      as [[P _] | [x [P [F _]]]]; rewrite P; [intros [] | ].
    rewrite E in *. simpl. intros [H | H].
    + apply N1. symmetry. exact H.
    + rewrite Forall_forall in F. apply F in H. simpl in H.
      apply N2. symmetry. exact H.
Qed.

Lemma last_bucket_call_wins_witness :
  let w' := snd (run env_ok (bucket "b1" ;;; bucket "b2") (fresh "d")) in
  resolves (OpExists "a.txt") = true /\
  throws env_ok (OpExists "a.txt") w' = false /\
  uses_bucket "b2" env_ok (OpExists "a.txt") w' /\
  ("b1" <> "b2" -> "b1" <> "d" ->
   ~ In "b1" (pulls (events env_ok (call (OpExists "a.txt")) w'))).
Proof.
  intros w'. split; [reflexivity | split; [reflexivity | ]].
  apply (last_bucket_call_wins env_ok (fresh "d") "b1" "b2" (OpExists "a.txt"));
    reflexivity.
Defined.

(** ** The file system *)

(** X10: only [download] reads the clock or touches the file system: every other
    method leaves the directories as they are, and its effects are pulls of
    the selector and requests to the client. *)
Theorem only_download_touches_files (env : Env) (w : World) (op : Op) :
  is_download op = false ->
  dirs (snd (run env (call op) w)) = dirs w /\
  forallb storage_event (events env (call op) w) = true.
Proof.
  destruct op; simpl is_download; try discriminate; intros _; unfold call;
    exec; split; reflexivity.
Qed.

Lemma only_download_touches_files_witness :
  let op := OpCopy "a.txt" "b.txt" None [("public", VBool true)] in
  is_download op = false /\
  dirs (snd (run env_ok (call op) (fresh "d"))) = dirs (fresh "d") /\
  forallb storage_event (events env_ok (call op) (fresh "d")) = true.
Proof.
  intros op. split; [reflexivity | ].
  apply (only_download_touches_files env_ok (fresh "d") op). reflexivity.
Defined.

Lemma existsb_tmp (ds : list string) :
  In "tmp" ds <-> existsb (String.eqb "tmp") ds = true.
Proof.
  split.
  - intros H. apply existsb_exists. exists "tmp".
    split; [exact H | reflexivity].
  - intros H. apply existsb_exists in H. destruct H as [x [Hx E]].
    apply String.eqb_eq in E. now subst.
Qed.

(** X11: [download] calls [mkdirSync] only for the directory [tmp] and only
    when it does not exist.  When [mkdirSync] throws, [download] throws the
    same error before it has pulled the selector or called the client, and
    creates nothing; when it does not throw, [tmp] exists after the call,
    whether the client then downloaded the object or refused. *)
Theorem download_creates_tmp_only (env : Env) (w : World) (location : string) :
  let t := clock env (log w) in
  let present := existsb (String.eqb "tmp") (dirs w) in
  let thrown :=
    if present then None
    else mkdir_error env (log w ++ [EvNow t; EvExistsSync "tmp" false]) "tmp" in
  filter is_mkdir (events env (download location) w) =
  (if present then [] else [EvMkdirSync "tmp" thrown]) /\
  match thrown with
  | Some e =>
      fst (run env (download location) w) = Thrown e /\
      events env (download location) w =
      [EvNow t; EvExistsSync "tmp" false; EvMkdirSync "tmp" (Some e)] /\
      _bucket (this (snd (run env (download location) w))) = _bucket (this w) /\
      dirs (snd (run env (download location) w)) = dirs w
  | None =>
      (forall e, fst (run env (download location) w) <> Thrown e) /\
      In "tmp" (dirs (snd (run env (download location) w))) /\
      dirs (snd (run env (download location) w)) =
      (if present then dirs w else "tmp" :: dirs w)
  end.
Proof.
  intros t present thrown.
  destruct (download_fs env w location) as [E1 [E2 E3]].
  fold t present thrown in E1, E2, E3.
  split; [exact E2 | ].
  destruct thrown as [e | ] eqn:Hth.
  - destruct E3 as [O [Ev S]]. repeat split; auto.
    rewrite E1. now destruct present.
  - split; [exact E3 | ].
    assert (D : dirs (snd (run env (download location) w)) =
                (if present then dirs w else "tmp" :: dirs w))
      by (rewrite E1; now destruct present).
    split; [ | exact D].
    rewrite D. destruct present eqn:Hp; [ | now left].
    now apply existsb_tmp.
Qed.

(** A directory in which nothing can be created: [download] throws, and the
    override set before it is still pending. *)
Lemma download_in_read_only_directory :
  run env_read_only (bucket "b" ;;; download "a.txt") (fresh "d") =
  (Thrown (MkFsError "EACCES"),
   {| this := {| storage := NewStorage "key.json";
                 _bucket := Resetable.set "b" (Resetable.new "d") |};
      dirs := [];
      log := [EvSet "b"; EvNow 1700000000000; EvExistsSync "tmp" false;
              EvMkdirSync "tmp" (Some (MkFsError "EACCES"))] |}).
Proof. reflexivity. Qed.

(** X12: once a [download] has been made that did not throw, no later
    [download] calls [mkdirSync], whatever calls come in between. *)
Theorem later_download_creates_nothing (env : Env) (w : World)
  (first second : string) (steps : list Step) :
  throws env (OpDownload first) w = false ->
  let w' := snd (run env (download first ;;; play steps) w) in
  filter is_mkdir (events env (download second) w') = [] /\
  dirs (snd (run env (download second) w')) = dirs w'.
Proof.
  intros Hth w'.
  assert (Hin : In "tmp" (dirs w')).
  { subst w'. rewrite run_bind. apply run_keeps_dirs.
    destruct (download_fs env w first) as [E [_ T]]. rewrite E.
    destruct (existsb (String.eqb "tmp") (dirs w)) eqn:Hp;
      [now apply existsb_tmp | ].
    destruct (mkdir_error env _ "tmp") as [e | ]; [ | now left].
    destruct T as [T _]. unfold throws, call in Hth. rewrite T in Hth.
    discriminate Hth. }
  apply existsb_tmp in Hin.
  destruct (download_fs env w' second) as [E1 [E2 _]].
  rewrite Hin in E1, E2. split; assumption.
Qed.

Lemma later_download_creates_nothing_witness :
  let w' :=
    snd (run env_ok (download "a.txt" ;;; play [DoBucket "b"]) (fresh "d")) in
  throws env_ok (OpDownload "a.txt") (fresh "d") = false /\
  filter is_mkdir (events env_ok (download "b.txt") w') = [] /\
  dirs (snd (run env_ok (download "b.txt") w')) = dirs w'.
Proof.
  intros w'. split; [reflexivity | ].
  apply (later_download_creates_nothing env_ok (fresh "d") "a.txt" "b.txt"
           [DoBucket "b"]).
  reflexivity.
Defined.

(** ** The path of a download *)

Lemma number_to_string_inj (n m : Z) :
  number_to_string n = number_to_string m -> n = m.
Proof.
  intros H.
  assert (E : Some n = Some m)
    by (rewrite <- (read_number_to_string n), <- (read_number_to_string m), H;
        reflexivity).
  now injection E.
Qed.

(** A string of digits followed by a dash can be read back: the digits end
    at the first dash. *)
Lemma digits_dash_inj (s1 s2 l1 l2 : string) :
  all_digits s1 = true -> all_digits s2 = true ->
  (s1 ++ String "-" l1 = s2 ++ String "-" l2)%string ->
  s1 = s2 /\ l1 = l2.
Proof.
  revert s2. induction s1 as [ | c1 s1 IH]; intros [ | c2 s2] D1 D2 H;
    simpl in *.
  - injection H as ->. auto.
  - injection H as <- _. discriminate D2.
  - injection H as -> _. discriminate D1.
  - injection H as -> H.
    apply andb_prop in D1, D2.
    destruct (IH s2 (proj2 D1) (proj2 D2) H) as [-> ->]. auto.
Qed.

(** A printed time stamp is a string of digits, after a minus sign before
    the epoch. *)
Lemma number_to_string_shape (t : Z) :
  digits (number_to_string t) \/
  exists ds, number_to_string t = String "-" ds /\ digits ds.
Proof.
  destruct t as [ | p | p].
  - left. now apply digits_number_to_string.
  - left. now apply digits_number_to_string.
  - right. exists (NilZero.string_of_uint (Pos.to_uint p)).
    split; [reflexivity | apply digits_NilZero].
Qed.

Lemma number_dash_inj (t1 t2 : Z) (l1 l2 : string) :
  (number_to_string t1 ++ String "-" l1 =
   number_to_string t2 ++ String "-" l2)%string ->
  number_to_string t1 = number_to_string t2 /\ l1 = l2.
Proof.
  destruct (number_to_string_shape t1) as [[N1 D1] | [d1 [-> [N1 D1]]]];
    destruct (number_to_string_shape t2) as [[N2 D2] | [d2 [-> [N2 D2]]]].
  - now apply digits_dash_inj.
  - destruct (number_to_string t1) as [ | c s]; [contradiction | ].
    simpl. intros H. injection H as -> _. discriminate D1.
  - destruct (number_to_string t2) as [ | c s]; [contradiction | ].
    simpl. intros H. injection H as <- _. discriminate D2.
  - simpl. intros H. injection H as H.
    destruct (digits_dash_inj d1 d2 l1 l2 D1 D2 H) as [-> ->]. auto.
Qed.

(** The only value [download] resolves to. *)
Lemma download_resolved (env : Env) (w : World) (location : string)
  (v : Value) :
  fst (run env (download location) w) = Resolved v ->
  v = VString ("tmp/" ++ number_to_string (clock env (log w)) ++ "-"
                 ++ location).
Proof.
  unfold download. unfold_methods. cbn -[String.eqb existsb].
  destruct (existsb (String.eqb "tmp") (dirs w)) eqn:Hp;
    cbn -[String.eqb existsb]; try rewrite Hp;
    try (destruct (mkdir_error env _ "tmp"); cbn -[String.eqb existsb]);
    try discriminate;
    (destruct (error (respond env _ _)); cbn -[String.eqb existsb];
     [discriminate | intros [= <-]; reflexivity]).
Qed.

(** X13: two downloads resolve to the same path only if they are downloads of
    the same location at the same reading of the clock: the path tells the
    time stamp and the location apart, also when the location has dashes
    or digits of its own. *)
Theorem download_path_determines_time_and_location (env1 env2 : Env)
  (w1 w2 : World) (location1 location2 : string) (v : Value) :
  fst (run env1 (download location1) w1) = Resolved v ->
  fst (run env2 (download location2) w2) = Resolved v ->
  clock env1 (log w1) = clock env2 (log w2) /\ location1 = location2.
Proof.
  intros H1 H2.
  apply download_resolved in H1. apply download_resolved in H2.
  rewrite H1 in H2. injection H2 as H.
  apply number_dash_inj in H. destruct H as [H ->].
  split; auto using number_to_string_inj.
Qed.

Lemma download_path_determines_time_and_location_witness :
  let v := VString "tmp/1700000000000-a.txt" in
  fst (run env_ok (download "a.txt") (fresh "d")) = Resolved v /\
  fst (run env_acl_denied (download "a.txt") (fresh "other")) = Resolved v /\
  clock env_ok (log (fresh "d")) = clock env_acl_denied (log (fresh "other")) /\
  "a.txt" = "a.txt".
Proof.
  intros v. split; [reflexivity | split; [reflexivity | ]].
  apply (download_path_determines_time_and_location env_ok env_acl_denied
           (fresh "d") (fresh "other") "a.txt" "a.txt" v); reflexivity.
Defined.

(** ** The selector after a call *)

(** X14: no method but [bucket] sets an override.  A call that resolves the
    selector leaves it with no override pending, whether the promise
    resolved or rejected; [getUrl] with a bucket of its own, and a
    [download] that throws before it gets to the selector, leave the
    selector as they found it. *)
Theorem selector_after_call (env : Env) (w : World) (op : Op) :
  _bucket (this (snd (run env (call op) w))) =
  if andb (resolves op) (negb (throws env op w))
  then Resetable.clear (_bucket (this w))
  else _bucket (this w).
Proof.
  destruct (resolves op) eqn:Hr; simpl andb.
  - destruct (throws env op w) eqn:Hth; simpl negb.
    + unfold throws in Hth. destruct op;
        try (exfalso; revert Hth; unfold call; exec; discriminate).
      destruct (download_fs env w location) as [_ [_ T]].
      destruct (existsb (String.eqb "tmp") (dirs w)).
      * exfalso. unfold call in Hth.
        destruct (fst (run env (download location) w)) eqn:O;
          try discriminate Hth. now apply (T e).
      * destruct (mkdir_error env _ "tmp") as [e | ].
        -- now destruct T as [_ [_ S]].
        -- exfalso. unfold call in Hth.
           destruct (fst (run env (download location) w)) eqn:O;
             try discriminate Hth. now apply (T e).
    + destruct (pulls_NoSet env (call op) (NoSet_call op) w)
        as [[P _] | [l [_ [_ S]]]]; [ | exact S].
      exfalso. now apply (call_pulls env op w).
  - destruct op; try discriminate Hr.
    destruct bucket0 as [b | ]; simpl in Hr; [ | discriminate Hr].
    apply negb_false_iff, negb_true_iff, String.eqb_neq in Hr.
    unfold call. rewrite run_bind, run_getUrl_given by assumption.
    reflexivity.
Qed.
